(** * ChatLab export: a shallow embedding of [internal/model/chatlab.go]

    The Go function [ConvertToChatLab] turns a slice of internal chat
    messages into the ChatLab exchange envelope.  This development embeds
    that function and proves the properties the specification states about
    it: content classification, scope inference, roster aggregation and the
    shape of the envelope.

    Conventions of the embedding:
    - a Go [string] is a byte sequence, here [string] (a list of 8-bit
      [ascii]); [len] is [String.length] and [s[a:]] is [slice_from];
    - [int] and [int64] values are [Z]; no arithmetic is done on them;
    - a [map[string]interface{}] is a [gmap string GoValue]; a [nil] map
      reads like the empty one;
    - a slice is [slice A], which keeps [nil] apart from the empty slice;
    - a [*Message] is [option Message], [None] being the [nil] pointer, and
      a run-time panic is the [None] result of the conversion;
    - [range] over a Go map visits the entries in an unspecified order that
      may change from one loop to the next: the order is an explicit
      argument, constrained only to enumerate the map. *)

From Stdlib Require Import ZArith String Ascii.
From stdpp Require Import base option list strings gmap fin_maps.

Local Open Scope string_scope.
Local Open Scope list_scope.
Local Open Scope Z_scope.

(** ** Go values *)

(** The dynamic values an [interface{}] can hold, as far as the
    conversion can tell them apart: it only asks whether a value is a
    string. *)
Inductive GoValue : Type :=
  | VNil
  | VString (s : string)
  | VInt (z : Z)
  | VFloat (bits : Z)
  | VBool (b : bool)
  | VComposite (tag : positive).   (* a slice, map, struct or pointer *)

(** [v.(string)] in its two-result form: the string and [true], or the
    zero string and [false].  It never panics. *)
Definition assertString (v : option GoValue) : string * bool :=
  match v with
  | Some (VString s) => (s, true)
  | _ => ("", false)
  end.

(** A Go slice: [nil], or a (possibly empty) backing sequence. *)
Inductive slice (A : Type) : Type :=
  | SNil
  | SOf (l : list A).
Arguments SNil {A}.
Arguments SOf {A} l.

Definition elems {A} (s : slice A) : list A :=
  match s with SNil => [] | SOf l => l end.

(** [make([]T, 0)] and [make([]T, 0, n)]: empty and not [nil]. *)
Definition make {A} : slice A := SOf [].

(** [append(s, x)]: the result is never [nil]. *)
Definition append {A} (s : slice A) (x : A) : slice A := SOf (elems s ++ [x]).

(** [s[a:]] on a string, for [a <= len(s)]. *)
Definition slice_from (s : string) (a : nat) : string :=
  substring a (String.length s - a) s.

(** [time.Time], seen through its only use here, [t.Unix()]. *)
Record time_Time : Type := { Unix : Z }.

(** ** ChatLab format constants *)

Definition ChatLabTypeText : Z := 0.
Definition ChatLabTypeImage : Z := 1.
Definition ChatLabTypeVoice : Z := 2.
Definition ChatLabTypeVideo : Z := 3.
Definition ChatLabTypeFile : Z := 4.
Definition ChatLabTypeEmoji : Z := 5.
Definition ChatLabTypeLink : Z := 7.
Definition ChatLabTypeLocation : Z := 8.

Definition ChatLabTypeRedPacket : Z := 20.
Definition ChatLabTypeTransfer : Z := 21.
Definition ChatLabTypePoke : Z := 22.
Definition ChatLabTypeCall : Z := 23.
Definition ChatLabTypeShare : Z := 24.
Definition ChatLabTypeReply : Z := 25.
Definition ChatLabTypeForward : Z := 26.
Definition ChatLabTypeContact : Z := 27.

Definition ChatLabTypeSystem : Z := 80.
Definition ChatLabTypeRecall : Z := 81.
Definition ChatLabTypeOther : Z := 99.

(** The closed set of export type codes. *)
Definition ChatLabTypes : list Z :=
  [ ChatLabTypeText; ChatLabTypeImage; ChatLabTypeVoice; ChatLabTypeVideo;
    ChatLabTypeFile; ChatLabTypeEmoji; ChatLabTypeLink; ChatLabTypeLocation;
    ChatLabTypeRedPacket; ChatLabTypeTransfer; ChatLabTypePoke;
    ChatLabTypeCall; ChatLabTypeShare; ChatLabTypeReply; ChatLabTypeForward;
    ChatLabTypeContact; ChatLabTypeSystem; ChatLabTypeRecall;
    ChatLabTypeOther ].

(** ** The export structures *)

Record ChatLabHeader : Type := {
  Version : string;
  ExportedAt : Z;
  Generator : string;
  Description : string
}.

Record ChatLabMeta : Type := {
  Name : string;
  Platform : string;
  MetaType : string;      (* field [Type] of [ChatLabMeta] *)
  GroupID : string;
  GroupAvatar : string
}.

Record ChatLabMember : Type := {
  PlatformID : string;
  MemberAccountName : string;     (* field [AccountName] of [ChatLabMember] *)
  MemberGroupNickname : string;   (* field [GroupNickname] of [ChatLabMember] *)
  Aliases : slice string;
  Avatar : string
}.

Record ChatLabMessage : Type := {
  MsgSender : string;       (* field [Sender] of [ChatLabMessage] *)
  AccountName : string;
  GroupNickname : string;
  Timestamp : Z;
  MsgType : Z;              (* field [Type] of [ChatLabMessage] *)
  MsgContent : string       (* field [Content] of [ChatLabMessage] *)
}.

Record ChatLab : Type := {
  Header : ChatLabHeader;   (* field [ChatLab] of [ChatLab] *)
  Meta : ChatLabMeta;
  Members : slice ChatLabMember;
  Messages : slice ChatLabMessage
}.

(** ** The source message *)

(** Modelled from the spec: the declaration of the [Message] struct is not
    part of [chatlab.go].  The fields are the ones [ConvertToChatLab]
    reads, with the types the specification's data model gives them:
    sender identifier, sender display name, self flag, timestamp, primary
    type code, sub-type code, the text content and the open-ended content
    attributes. *)
Record Message : Type := {
  Time : time_Time;
  Sender : string;
  SenderName : string;
  IsSelf : bool;
  Type_ : Z;                       (* field [Type] *)
  SubType : Z;
  Content : string;
  Contents : gmap string GoValue
}.

(** Modelled from the spec: the [MessageType...] and [MessageSubType...]
    constants that the two [switch] statements name are declared outside
    [chatlab.go]; their values are parameters of the development. *)
Record MessageCodes : Type := {
  MessageTypeText : Z;
  MessageTypeImage : Z;
  MessageTypeVoice : Z;
  MessageTypeVideo : Z;
  MessageTypeAnimation : Z;
  MessageTypeLocation : Z;
  MessageTypeCard : Z;
  MessageTypeVOIP : Z;
  MessageTypeSystem : Z;
  MessageTypeShare : Z;
  MessageSubTypeFile : Z;
  MessageSubTypeLink : Z;
  MessageSubTypeLink2 : Z;
  MessageSubTypeMergeForward : Z;
  MessageSubTypeNote : Z;
  MessageSubTypeChatRoomNotice : Z;
  MessageSubTypeMiniProgram : Z;
  MessageSubTypeMiniProgram2 : Z;
  MessageSubTypeQuote : Z;
  MessageSubTypePat : Z;
  MessageSubTypeMusic : Z;
  MessageSubTypePay : Z;
  MessageSubTypeRedEnvelope : Z;
  MessageSubTypeRedEnvelopeCover : Z
}.

(** The case labels of the outer [switch], in source order. *)
Definition primaryCases (c : MessageCodes) : list Z :=
  [ MessageTypeText c; MessageTypeImage c; MessageTypeVoice c;
    MessageTypeVideo c; MessageTypeAnimation c; MessageTypeLocation c;
    MessageTypeCard c; MessageTypeVOIP c; MessageTypeSystem c;
    MessageTypeShare c ].

(** The case labels of the inner [switch], in source order. *)
Definition subCases (c : MessageCodes) : list Z :=
  [ MessageSubTypeFile c; MessageSubTypeLink c; MessageSubTypeLink2 c;
    MessageSubTypeMergeForward c; MessageSubTypeNote c;
    MessageSubTypeChatRoomNotice c; MessageSubTypeMiniProgram c;
    MessageSubTypeMiniProgram2 c; MessageSubTypeQuote c;
    MessageSubTypePat c; MessageSubTypeMusic c; MessageSubTypePay c;
    MessageSubTypeRedEnvelope c; MessageSubTypeRedEnvelopeCover c ].

(** Go rejects a [switch] that repeats an integer constant among its
    cases, so the labels of each [switch] are pairwise distinct. *)
Definition codes_distinct (c : MessageCodes) : Prop :=
  NoDup (primaryCases c) ∧ NoDup (subCases c).

(** A sample assignment of the codes (WeChat's message type numbers), used
    to run the conversion on concrete inputs. *)
Definition wechatCodes : MessageCodes := {|
  MessageTypeText := 1;
  MessageTypeImage := 3;
  MessageTypeVoice := 34;
  MessageTypeVideo := 43;
  MessageTypeAnimation := 47;
  MessageTypeLocation := 48;
  MessageTypeCard := 42;
  MessageTypeVOIP := 50;
  MessageTypeSystem := 10000;
  MessageTypeShare := 49;
  MessageSubTypeFile := 6;
  MessageSubTypeLink := 4;
  MessageSubTypeLink2 := 5;
  MessageSubTypeMergeForward := 19;
  MessageSubTypeNote := 24;
  MessageSubTypeChatRoomNotice := 87;
  MessageSubTypeMiniProgram := 33;
  MessageSubTypeMiniProgram2 := 36;
  MessageSubTypeQuote := 57;
  MessageSubTypePat := 62;
  MessageSubTypeMusic := 92;
  MessageSubTypePay := 2000;
  MessageSubTypeRedEnvelope := 2001;
  MessageSubTypeRedEnvelopeCover := 2003
|}.

(** ** The conversion *)

Section Convert.

Variable c : MessageCodes.

(** The inner [switch msg.SubType] of the share case.  [content] is the
    content on entry, [msg.Content]. *)
Definition refineShare (msg : Message) (content : string) : Z * string :=
  let sub := SubType msg in
  if bool_decide (sub = MessageSubTypeFile c) then
    match assertString (Contents msg !! "title") with
    | (title, true) => (ChatLabTypeFile, title)
    | (_, false) => (ChatLabTypeFile, content)
    end
  else if bool_decide (sub = MessageSubTypeLink c ∨ sub = MessageSubTypeLink2 c) then
    match assertString (Contents msg !! "url") with
    | (url, true) => (ChatLabTypeLink, url)
    | (_, false) => (ChatLabTypeLink, content)
    end
  else if bool_decide (sub = MessageSubTypeMergeForward c ∨ sub = MessageSubTypeNote c
                       ∨ sub = MessageSubTypeChatRoomNotice c) then
    match assertString (Contents msg !! "title") with
    | (title, true) => (ChatLabTypeForward, title)
    | (_, false) => (ChatLabTypeForward, content)
    end
  else if bool_decide (sub = MessageSubTypeMiniProgram c
                       ∨ sub = MessageSubTypeMiniProgram2 c) then
    match assertString (Contents msg !! "title") with
    | (title, true) => (ChatLabTypeShare, title)
    | (_, false) => (ChatLabTypeShare, content)
    end
  else if bool_decide (sub = MessageSubTypeQuote c) then (ChatLabTypeReply, content)
  else if bool_decide (sub = MessageSubTypePat c) then (ChatLabTypePoke, content)
  else if bool_decide (sub = MessageSubTypeMusic c) then
    match assertString (Contents msg !! "url") with
    | (url, true) => (ChatLabTypeShare, url)
    | (_, false) => (ChatLabTypeShare, content)
    end
  else if bool_decide (sub = MessageSubTypePay c) then (ChatLabTypeTransfer, content)
  else if bool_decide (sub = MessageSubTypeRedEnvelope c
                       ∨ sub = MessageSubTypeRedEnvelopeCover c) then
    (ChatLabTypeRedPacket, "[红包]")
  else (ChatLabTypeShare, content).

(** "Refine Content and Type": the outer [switch msg.Type], giving the
    final values of [clType] and [content]. *)
Definition refineContentAndType (msg : Message) : Z * string :=
  let content := Content msg in
  let t := Type_ msg in
  if bool_decide (t = MessageTypeText c) then (ChatLabTypeText, content)
  else if bool_decide (t = MessageTypeImage c) then
    match assertString (Contents msg !! "path") with
    | (path, true) => (ChatLabTypeImage, path)
    | (_, false) =>
        match assertString (Contents msg !! "md5") with
        | (md5, true) => (ChatLabTypeImage, md5)
        | (_, false) => (ChatLabTypeImage, "[图片]")
        end
    end
  else if bool_decide (t = MessageTypeVoice c) then (ChatLabTypeVoice, "[语音]")
  else if bool_decide (t = MessageTypeVideo c) then (ChatLabTypeVideo, "[视频]")
  else if bool_decide (t = MessageTypeAnimation c) then
    match assertString (Contents msg !! "cdnurl") with
    | (cdnURL, true) => (ChatLabTypeEmoji, cdnURL)
    | (_, false) => (ChatLabTypeEmoji, "[表情]")
    end
  else if bool_decide (t = MessageTypeLocation c) then
    let label := fst (assertString (Contents msg !! "label")) in
    if bool_decide (label ≠ "") then (ChatLabTypeLocation, label)
    else (ChatLabTypeLocation, "[位置]")
  else if bool_decide (t = MessageTypeCard c) then (ChatLabTypeContact, "[名片]")
  else if bool_decide (t = MessageTypeVOIP c) then (ChatLabTypeCall, "[通话]")
  else if bool_decide (t = MessageTypeSystem c) then (ChatLabTypeSystem, content)
  else if bool_decide (t = MessageTypeShare c) then refineShare msg content
  else (ChatLabTypeOther, content).

(** "Handle Self Name": the value of [senderName]. *)
Definition handleSelfName (msg : Message) : string :=
  let senderName := SenderName msg in
  if IsSelf msg && bool_decide (senderName = "") then "我" else senderName.

(** The [clMsg] appended for [msg]. *)
Definition buildMessage (isGroup : bool) (msg : Message) : ChatLabMessage :=
  let '(clType, content) := refineContentAndType msg in
  let senderName := handleSelfName msg in
  {| MsgSender := Sender msg;
     AccountName := senderName;
     GroupNickname := if isGroup then senderName else "";
     Timestamp := Unix (Time msg);
     MsgType := clType;
     MsgContent := content |}.

(** The [member] built for a sender seen for the first time. *)
Definition buildMember (isGroup : bool) (msg : Message) : ChatLabMember :=
  let senderName := handleSelfName msg in
  {| PlatformID := Sender msg;
     MemberAccountName := senderName;
     MemberGroupNickname := if isGroup then senderName else "";
     Aliases := SNil;
     Avatar := "" |}.

(** "Collect Member": record the sender unless the map already has it. *)
Definition collectMember (isGroup : bool) (msg : Message)
    (memberMap : gmap string ChatLabMember) : gmap string ChatLabMember :=
  match memberMap !! Sender msg with
  | Some _ => memberMap
  | None => <[Sender msg := buildMember isGroup msg]> memberMap
  end.

(** The state the message loop updates: [cl.Messages] and [memberMap]. *)
Definition loopState : Type := slice ChatLabMessage * gmap string ChatLabMember.

(** One iteration of [for _, msg := range messages].  Reading a field
    through a [nil] pointer panics. *)
Definition loopBody (isGroup : bool) (st : loopState) (p : option Message)
    : option loopState :=
  match p with
  | None => None
  | Some msg =>
      Some (append (fst st) (buildMessage isGroup msg),
            collectMember isGroup msg (snd st))
  end.

Fixpoint messageLoop (isGroup : bool) (messages : list (option Message))
    (st : loopState) : option loopState :=
  match messages with
  | [] => Some st
  | p :: rest =>
      match loopBody isGroup st p with
      | None => None
      | Some st' => messageLoop isGroup rest st'
      end
  end.

(** "Infer chat type": the guard of the [if] at the head of the function. *)
Definition inferIsGroup (talkerID : string) : bool :=
  bool_decide (9 < String.length talkerID)%nat
  && bool_decide (slice_from talkerID (String.length talkerID - 9) = "@chatroom").

(** [for _, m := range memberMap { cl.Members = append(cl.Members, m) }],
    the entries coming in the order [order]. *)
Definition drainMembers (order : list (string * ChatLabMember))
    (members : slice ChatLabMember) : slice ChatLabMember :=
  fold_left (λ acc kv, append acc (snd kv)) order members.

(** Assignments to single fields of [cl.Meta]. *)
Definition withName (name : string) (m : ChatLabMeta) : ChatLabMeta :=
  {| Name := name; Platform := Platform m; MetaType := MetaType m;
     GroupID := GroupID m; GroupAvatar := GroupAvatar m |}.

Definition withType (type : string) (m : ChatLabMeta) : ChatLabMeta :=
  {| Name := Name m; Platform := Platform m; MetaType := type;
     GroupID := GroupID m; GroupAvatar := GroupAvatar m |}.

Definition withGroupID (groupID : string) (m : ChatLabMeta) : ChatLabMeta :=
  {| Name := Name m; Platform := Platform m; MetaType := MetaType m;
     GroupID := groupID; GroupAvatar := GroupAvatar m |}.

(** [ConvertToChatLab].  [rangeOrder] is the order in which the final
    [range memberMap] visits the map and [now] the value of
    [time.Now().Unix()]. *)
Definition ConvertToChatLab
    (rangeOrder : gmap string ChatLabMember → list (string * ChatLabMember))
    (now : Z)
    (messages : list (option Message)) (talkerID talkerName : string)
    : option ChatLab :=
  let header :=
    {| Version := "0.0.1"; ExportedAt := now; Generator := "Chatlog";
       Description := "" |} in
  let meta :=
    {| Name := talkerName; Platform := "wechat"; MetaType := "private";
       GroupID := ""; GroupAvatar := "" |} in
  let meta := if bool_decide (talkerName = "") then withName talkerID meta else meta in
  let '(meta, isGroup) :=
    if inferIsGroup talkerID
    then (withGroupID talkerID (withType "group" meta), true)
    else (meta, false) in
  match messageLoop isGroup messages (make, ∅) with
  | None => None
  | Some (msgs, memberMap) =>
      Some {| Header := header;
              Meta := meta;
              Members := drainMembers (rangeOrder memberMap) make;
              Messages := msgs |}
  end.

End Convert.

(** An order is one [range] can take when it enumerates the map: every
    entry once. *)
Definition range_order
    (rangeOrder : gmap string ChatLabMember → list (string * ChatLabMember)) : Prop :=
  ∀ m, rangeOrder m ≡ₚ map_to_list m.

(** ** Definitions used to state the properties *)

(** The member map after the messages [ms], starting from [memberMap]. *)
Definition collectAll (isGroup : bool) (ms : list Message)
    (memberMap : gmap string ChatLabMember) : gmap string ChatLabMember :=
  foldl (λ mm msg, collectMember isGroup msg mm) memberMap ms.

(** The metadata [ConvertToChatLab] computes from the two identifiers. *)
Definition metaOf (talkerID talkerName : string) : ChatLabMeta :=
  {| Name := if bool_decide (talkerName = "") then talkerID else talkerName;
     Platform := "wechat";
     MetaType := if inferIsGroup talkerID then "group" else "private";
     GroupID := if inferIsGroup talkerID then talkerID else "";
     GroupAvatar := "" |}.

(** The first message of [ms] sent by [s], if any. *)
Definition firstBy (s : string) (ms : list Message) : option Message :=
  List.find (λ m, bool_decide (Sender m = s)) ms.

(** The specification's wording of the group test: the identifier is
    strictly longer than 9 characters and ends with ["@chatroom"]. *)
Definition hasGroupSuffix (talkerID : string) : Prop :=
  (9 < String.length talkerID)%nat ∧ ∃ p, talkerID = p +:+ "@chatroom".

(** The soft read of an attribute: the string it holds, if it holds one. *)
Definition stringAttr (msg : Message) (key : string) : option string :=
  match Contents msg !! key with
  | Some (VString s) => Some s
  | _ => None
  end.

(** An image message that carries no content attributes. *)
Definition bareImage : Message :=
  {| Time := {| Unix := 1700000000 |}; Sender := "wxid_abc123";
     SenderName := "Alice"; IsSelf := false;
     Type_ := MessageTypeImage wechatCodes; SubType := 0;
     Content := "<msg/>"; Contents := ∅ |}.

(** A share message of sub-type link carrying a [url]. *)
Definition linkShare : Message :=
  {| Time := {| Unix := 1700000000 |}; Sender := "wxid_abc123";
     SenderName := "Alice"; IsSelf := false;
     Type_ := MessageTypeShare wechatCodes;
     SubType := MessageSubTypeLink wechatCodes;
     Content := ""; Contents := {[ "url" := VString "https://x.test" ]} |}.

(** [msg] with its content attributes replaced. *)
Definition withContents (contents : gmap string GoValue) (msg : Message) : Message :=
  {| Time := Time msg; Sender := Sender msg; SenderName := SenderName msg;
     IsSelf := IsSelf msg; Type_ := Type_ msg; SubType := SubType msg;
     Content := Content msg; Contents := contents |}.

(** A short group conversation: the account owner writes twice, first
    under a name and then without one, and a second member answers. *)
Definition ownerNamed : Message :=
  {| Time := {| Unix := 1700000000 |}; Sender := "wxid_me"; SenderName := "Bob";
     IsSelf := true; Type_ := MessageTypeText wechatCodes; SubType := 0;
     Content := "hello"; Contents := ∅ |}.

Definition ownerUnnamed : Message :=
  {| Time := {| Unix := 1700000060 |}; Sender := "wxid_me"; SenderName := "";
     IsSelf := true; Type_ := MessageTypeText wechatCodes; SubType := 0;
     Content := "anyone there?"; Contents := ∅ |}.

Definition aliceReply : Message :=
  {| Time := {| Unix := 1700000120 |}; Sender := "wxid_abc123";
     SenderName := "Alice"; IsSelf := false;
     Type_ := MessageTypeText wechatCodes; SubType := 0;
     Content := "hi"; Contents := ∅ |}.

Definition sampleChat : list Message := [ownerNamed; ownerUnnamed; aliceReply].

(** The attribute keys the two [switch] statements read. *)
Definition attributeKeys : list string :=
  ["path"; "md5"; "cdnurl"; "label"; "title"; "url"].

(** A message of Alice's with the given type codes, text and attributes. *)
Definition sampleMessage (type subType : Z) (content : string)
    (contents : gmap string GoValue) : Message :=
  {| Time := {| Unix := 1700000000 |}; Sender := "wxid_abc123";
     SenderName := "Alice"; IsSelf := false; Type_ := type; SubType := subType;
     Content := content; Contents := contents |}.

(** ** Auxiliary facts *)

(** *** Slices *)

Lemma drainMembers_SOf order (l : list ChatLabMember) :
  drainMembers order (SOf l) = SOf (l ++ order.*2).
Proof.
  revert l. induction order as [|kv order IH]; intros l; simpl.
  - by rewrite app_nil_r.
  - unfold append at 1. simpl. rewrite IH. by rewrite <- app_assoc.
Qed.

(** *** Strings: the suffix cut out by [slice_from] *)

Lemma substring_all (s : string) : substring 0 (String.length s) s = s.
Proof. induction s as [|a s IH]; simpl; [done | by rewrite IH]. Qed.

Lemma length_append (p t : string) :
  String.length (p +:+ t) = (String.length p + String.length t)%nat.
Proof. induction p as [|a p IH]; simpl; [done | by rewrite IH]. Qed.

Lemma slice_from_append (p t : string) :
  slice_from (p +:+ t) (String.length p) = t.
Proof.
  unfold slice_from. rewrite length_append.
  replace (String.length p + String.length t - String.length p)%nat
    with (String.length t) by lia.
  induction p as [|a p IH]; simpl; [apply substring_all | exact IH].
Qed.

Lemma slice_from_split (s : string) (n : nat) :
  (n ≤ String.length s)%nat → s = substring 0 n s +:+ slice_from s n.
Proof.
  unfold slice_from. revert s. induction n as [|n IH]; intros s Hn.
  - rewrite Nat.sub_0_r, substring_all. by destruct s.
  - destruct s as [|a s]; simpl in *; [lia|].
    change (String a s = String a (substring 0 n s +:+ substring n (String.length s - n) s)).
    f_equal. apply IH. lia.
Qed.

(** *** The message loop on non-[nil] pointers *)

Lemma messageLoop_deref c isGroup (ms : list Message) l memberMap :
  messageLoop c isGroup (Some <$> ms) (SOf l, memberMap)
  = Some (SOf (l ++ (buildMessage c isGroup <$> ms)),
          collectAll isGroup ms memberMap).
Proof.
  revert l memberMap. induction ms as [|msg ms IH]; intros l memberMap; simpl.
  - by rewrite app_nil_r.
  - unfold append. simpl. rewrite IH. by rewrite <- app_assoc.
Qed.

(** A [nil] pointer anywhere in the slice makes the loop panic. *)
Lemma messageLoop_nil c isGroup (messages : list (option Message)) st :
  None ∈ messages → messageLoop c isGroup messages st = None.
Proof.
  revert st. induction messages as [|p rest IH]; intros st Hin.
  - by apply elem_of_nil in Hin.
  - destruct p as [msg|]; simpl; [|done].
    apply IH. apply elem_of_cons in Hin as [?|?]; done.
Qed.

(** The envelope for a slice of non-[nil] pointers, field by field. *)
Lemma ConvertToChatLab_deref c order now (ms : list Message) talkerID talkerName :
  ConvertToChatLab c order now (Some <$> ms) talkerID talkerName
  = Some {| Header := {| Version := "0.0.1"; ExportedAt := now;
                         Generator := "Chatlog"; Description := "" |};
            Meta := metaOf talkerID talkerName;
            Members :=
              SOf ((order (collectAll (inferIsGroup talkerID) ms ∅)).*2);
            Messages := SOf (buildMessage c (inferIsGroup talkerID) <$> ms) |}.
Proof.
  unfold ConvertToChatLab, metaOf, make.
  destruct (inferIsGroup talkerID); rewrite messageLoop_deref;
    rewrite drainMembers_SOf; simpl;
    by destruct (bool_decide (talkerName = "")).
Qed.

(** *** The roster *)

Lemma firstBy_split s ms msg :
  firstBy s ms = Some msg →
  ∃ pre post, ms = pre ++ msg :: post ∧ Sender msg = s
              ∧ Forall (λ m, Sender m ≠ s) pre.
Proof.
  unfold firstBy. induction ms as [|m ms IH]; simpl; [done|].
  case_bool_decide as Hs.
  - intros [= ->]. by exists [], ms.
  - intros Hfind. destruct (IH Hfind) as (pre & post & -> & ? & ?).
    exists (m :: pre), post. split_and!; [done | done | by constructor].
Qed.

Lemma firstBy_is_Some s ms : is_Some (firstBy s ms) ↔ s ∈ Sender <$> ms.
Proof.
  unfold firstBy. induction ms as [|m ms IH]; simpl.
  - split; [by intros [? ?] | by intros ?%elem_of_nil].
  - rewrite elem_of_cons. case_bool_decide as Hs.
    + split; [by left | by eexists].
    + rewrite IH. split; [by right | by intros [?|?]].
Qed.

(** First-seen-wins, as a lookup: an entry present at the start is kept,
    and a missing one is built from the sender's first message. *)
Lemma collectAll_lookup isGroup ms (memberMap : gmap string ChatLabMember) s :
  collectAll isGroup ms memberMap !! s
  = match memberMap !! s with
    | Some member => Some member
    | None => buildMember isGroup <$> firstBy s ms
    end.
Proof.
  revert memberMap. induction ms as [|msg ms IH]; intros memberMap; simpl.
  - by destruct (memberMap !! s).
  - fold (collectAll isGroup ms (collectMember isGroup msg memberMap)).
    rewrite IH. unfold collectMember, firstBy. simpl.
    destruct (memberMap !! Sender msg) as [old|] eqn:Hold.
    + destruct (memberMap !! s) eqn:Hs; [done|].
      case_bool_decide as Heq; [congruence | done].
    + case_bool_decide as Heq.
      * subst s. by rewrite lookup_insert_eq, Hold.
      * by rewrite lookup_insert_ne.
Qed.

Lemma collectAll_empty_lookup isGroup ms s :
  collectAll isGroup ms ∅ !! s = buildMember isGroup <$> firstBy s ms.
Proof. by rewrite collectAll_lookup, lookup_empty. Qed.

(** Every entry of the final map is filed under its own platform id. *)
Lemma collectAll_key isGroup ms s member :
  collectAll isGroup ms ∅ !! s = Some member → PlatformID member = s.
Proof.
  rewrite collectAll_empty_lookup. intros Hm.
  apply fmap_Some in Hm as (msg & Hfirst & ->).
  by apply firstBy_split in Hfirst as (? & ? & _ & ? & _).
Qed.

Lemma collectAll_keys isGroup ms :
  PlatformID <$> (map_to_list (collectAll isGroup ms ∅)).*2
  = (map_to_list (collectAll isGroup ms ∅)).*1.
Proof.
  rewrite <- list_fmap_compose.
  apply Forall_fmap_ext, Forall_forall. intros [k v] Hin. simpl.
  apply elem_of_map_to_list in Hin. by eapply collectAll_key.
Qed.

(** *** The case labels *)

Lemma wechatCodes_distinct : codes_distinct wechatCodes.
Proof. split; apply (bool_decide_unpack _); by vm_compute. Qed.

(** Turn [NoDup] of a list of labels into the pairwise inequalities. *)
Ltac distinct_labels H :=
  repeat match type of H with
         | NoDup (_ :: _) =>
             let Hne := fresh "Hne" in
             apply NoDup_cons in H as [Hne H];
             rewrite ?not_elem_of_cons in Hne;
             destruct_and? Hne
         end.

(** A label test that went the wrong way contradicts the inequalities. *)
Ltac label_clash :=
  exfalso;
  match goal with
  | H : _ ∨ _ ∨ _ |- _ => destruct H as [H|[H|H]]; congruence
  | H : _ ∨ _ |- _ => destruct H as [H|H]; congruence
  | H : ¬ (_ ∨ _) |- _ =>
      apply H; repeat ((left; congruence) || right); congruence
  | _ => congruence
  end.

(** Walk down a [switch]: decide each label test with the inequalities. *)
Ltac run_switch :=
  repeat (case_bool_decide; try label_clash).

(** ** Scope inference *)

Lemma inferIsGroup_spec talkerID :
  inferIsGroup talkerID = true ↔ hasGroupSuffix talkerID.
Proof.
  unfold inferIsGroup, hasGroupSuffix.
  rewrite andb_true_iff, !bool_decide_eq_true. split.
  - intros [Hlen Hsuf]. split; [done|].
    exists (substring 0 (String.length talkerID - 9) talkerID).
    rewrite <- Hsuf. apply slice_from_split. lia.
  - intros [Hlen [p ->]]. split; [done|].
    rewrite length_append. simpl.
    replace (String.length p + 9 - 9)%nat with (String.length p) by lia.
    apply slice_from_append.
Qed.

Lemma inferIsGroup_false talkerID :
  inferIsGroup talkerID = false ↔ ¬ hasGroupSuffix talkerID.
Proof.
  rewrite <- inferIsGroup_spec. by destruct (inferIsGroup talkerID).
Qed.

(** C2.  A conversation identifier that is strictly longer than 9
    characters and whose trailing 9 characters are ["@chatroom"] gives an
    envelope of kind ["group"] whose groupId is the whole identifier; any
    other identifier gives kind ["private"] and an empty groupId. *)
Theorem scope_inference c order now (ms : list Message) talkerID talkerName :
  ∃ cl, ConvertToChatLab c order now (Some <$> ms) talkerID talkerName = Some cl
    ∧ (hasGroupSuffix talkerID →
         MetaType (Meta cl) = "group" ∧ GroupID (Meta cl) = talkerID)
    ∧ (¬ hasGroupSuffix talkerID →
         MetaType (Meta cl) = "private" ∧ GroupID (Meta cl) = "").
Proof.
  eexists. split; [apply ConvertToChatLab_deref|]. simpl. split.
  - intros Hg%inferIsGroup_spec. by rewrite Hg.
  - intros Hp%inferIsGroup_false. by rewrite Hp.
Qed.

(** The specification's two examples: ["12345@chatroom"] is a group,
    ["wxid_abc123"] is private. *)
Lemma scope_inference_witness :
  (∃ cl, ConvertToChatLab wechatCodes map_to_list 0 [] "12345@chatroom" "" = Some cl
     ∧ MetaType (Meta cl) = "group" ∧ GroupID (Meta cl) = "12345@chatroom")
  ∧ (∃ cl, ConvertToChatLab wechatCodes map_to_list 0 [] "wxid_abc123" "" = Some cl
     ∧ MetaType (Meta cl) = "private" ∧ GroupID (Meta cl) = "").
Proof.
  split.
  - destruct (scope_inference wechatCodes map_to_list 0 [] "12345@chatroom" "")
      as (cl & Hcl & Hgroup & _).
    exists cl. split; [exact Hcl|]. apply Hgroup.
    split; [simpl; lia | by exists "12345"].
  - destruct (scope_inference wechatCodes map_to_list 0 [] "wxid_abc123" "")
      as (cl & Hcl & _ & Hprivate).
    exists cl. split; [exact Hcl|]. apply Hprivate.
    apply inferIsGroup_false. reflexivity.
Defined.

(** ** Content extraction *)

(** The type and content of the export message are the two results of the
    [switch]. *)
Lemma buildMessage_type_content c isGroup msg :
  (MsgType (buildMessage c isGroup msg), MsgContent (buildMessage c isGroup msg))
  = refineContentAndType c msg.
Proof. unfold buildMessage. by destruct (refineContentAndType c msg). Qed.

Lemma assertString_stringAttr msg key :
  assertString (Contents msg !! key)
  = match stringAttr msg key with Some s => (s, true) | None => ("", false) end.
Proof.
  unfold stringAttr, assertString.
  by destruct (Contents msg !! key) as [[]|].
Qed.

(** C1, as stated, fails: an image message with neither a [path] nor an
    [md5] attribute does not get the content ["[image]"]. *)
Lemma image_placeholder_counterexample :
  Type_ bareImage = MessageTypeImage wechatCodes
  ∧ stringAttr bareImage "path" = None
  ∧ stringAttr bareImage "md5" = None
  ∧ MsgType (buildMessage wechatCodes false bareImage) = ChatLabTypeImage
  ∧ MsgContent (buildMessage wechatCodes false bareImage) ≠ "[image]".
Proof. by vm_compute. Qed.

(** C1, amended.  For every source message whose primary type is image,
    the export type is image and the content is the [path] attribute if it
    is a string, otherwise the [md5] attribute if it is a string, otherwise
    the placeholder ["[图片]"]. *)
Theorem image_content c isGroup msg :
  codes_distinct c →
  Type_ msg = MessageTypeImage c →
  MsgType (buildMessage c isGroup msg) = ChatLabTypeImage
  ∧ MsgContent (buildMessage c isGroup msg)
    = match stringAttr msg "path" with
      | Some path => path
      | None => match stringAttr msg "md5" with
                | Some md5 => md5
                | None => "[图片]"
                end
      end.
Proof.
  intros [Hprim _] Himg.
  pose proof (buildMessage_type_content c isGroup msg) as Hpair.
  unfold refineContentAndType in Hpair. rewrite !assertString_stringAttr in Hpair.
  unfold primaryCases in Hprim. distinct_labels Hprim.
  rewrite Himg in Hpair. revert Hpair. run_switch.
  destruct (stringAttr msg "path"); [by intros [= -> ->]|].
  destruct (stringAttr msg "md5"); by intros [= -> ->].
Qed.

Lemma image_content_witness :
  MsgType (buildMessage wechatCodes true bareImage) = ChatLabTypeImage
  ∧ MsgContent (buildMessage wechatCodes true bareImage) = "[图片]".
Proof.
  apply (image_content wechatCodes true bareImage).
  - exact wechatCodes_distinct.
  - reflexivity.
Defined.

(** The specification's image example: a [path] attribute wins. *)
Example image_with_path :
  let msg := {| Time := {| Unix := 0 |}; Sender := "s"; SenderName := "n";
                IsSelf := false; Type_ := MessageTypeImage wechatCodes;
                SubType := 0; Content := "raw";
                Contents := {[ "path" := VString "/tmp/a.jpg";
                               "md5" := VString "0cc175b9" ]} |} in
  refineContentAndType wechatCodes msg = (ChatLabTypeImage, "/tmp/a.jpg").
Proof. by vm_compute. Qed.

(** C7.  A share message of sub-type link or link-variant-2 has export
    type link, with the [url] attribute as content when that is a string
    and the original content otherwise; a share message whose sub-type is
    none of the labels of the sub-type table has export type share and its
    content unchanged. *)
Theorem share_link_and_default c isGroup msg :
  codes_distinct c →
  Type_ msg = MessageTypeShare c →
  ((SubType msg = MessageSubTypeLink c ∨ SubType msg = MessageSubTypeLink2 c) →
     MsgType (buildMessage c isGroup msg) = ChatLabTypeLink
     ∧ MsgContent (buildMessage c isGroup msg)
       = default (Content msg) (stringAttr msg "url"))
  ∧ (SubType msg ∉ subCases c →
     MsgType (buildMessage c isGroup msg) = ChatLabTypeShare
     ∧ MsgContent (buildMessage c isGroup msg) = Content msg).
Proof.
  intros [Hprim Hsub] Hshare.
  pose proof (buildMessage_type_content c isGroup msg) as Hpair.
  unfold refineContentAndType in Hpair.
  unfold primaryCases in Hprim. distinct_labels Hprim.
  rewrite Hshare in Hpair. run_switch.
  unfold refineShare in Hpair. cbv zeta in Hpair.
  rewrite !assertString_stringAttr in Hpair. split.
  - intros Hlink. unfold subCases in Hsub. distinct_labels Hsub.
    destruct Hlink as [Hlink|Hlink]; rewrite Hlink in Hpair; run_switch;
      revert Hpair; destruct (stringAttr msg "url"); by intros [= -> ->].
  - intros Hnone. unfold subCases in Hnone.
    rewrite !not_elem_of_cons in Hnone. destruct_and? Hnone.
    run_switch. revert Hpair. by intros [= -> ->].
Qed.

Lemma share_link_and_default_witness :
  MsgType (buildMessage wechatCodes false linkShare) = ChatLabTypeLink
  ∧ MsgContent (buildMessage wechatCodes false linkShare) = "https://x.test".
Proof.
  apply (share_link_and_default wechatCodes false linkShare).
  - exact wechatCodes_distinct.
  - reflexivity.
  - left. reflexivity.
Defined.

(** The same sub-type without a [url]: the (empty) original content. *)
Example link_without_url :
  let msg := {| Time := Time linkShare; Sender := Sender linkShare;
                SenderName := SenderName linkShare; IsSelf := false;
                Type_ := Type_ linkShare; SubType := SubType linkShare;
                Content := ""; Contents := {[ "url" := VInt 7 ]} |} in
  refineContentAndType wechatCodes msg = (ChatLabTypeLink, "").
Proof. by vm_compute. Qed.

(** ** Totality *)

Lemma refineContentAndType_codes c msg :
  fst (refineContentAndType c msg) ∈ ChatLabTypes.
Proof.
  unfold refineContentAndType, refineShare.
  rewrite !assertString_stringAttr.
  repeat case_bool_decide;
    repeat match goal with
           | |- context [stringAttr ?m ?k] => destruct (stringAttr m k)
           end;
    simpl; unfold ChatLabTypes;
    repeat first [apply list_elem_of_here | apply list_elem_of_further].
Qed.

(** Attributes that hold no string read like absent attributes. *)
Lemma refineContentAndType_soft c msg :
  (∀ key, stringAttr msg key = None) →
  refineContentAndType c msg = refineContentAndType c (withContents ∅ msg).
Proof.
  intros Hnone. unfold refineContentAndType, refineShare.
  rewrite !assertString_stringAttr, !Hnone.
  unfold stringAttr, withContents. simpl. by rewrite !lookup_empty.
Qed.

(** C8.  The conversion never fails on source messages: a type assertion
    on an absent or non-string attribute yields the zero string and
    [false]; attributes that are not strings read like absent ones; every
    message gets an export message whose type code is one of the ChatLab
    codes; an unrecognized primary type gives the code "other" with the
    original content; one loop iteration and the whole conversion return a
    result. *)
Theorem conversion_total c :
  (∀ v, (∀ s, v ≠ Some (VString s)) → assertString v = ("", false))
  ∧ (∀ msg, (∀ key, stringAttr msg key = None) →
       refineContentAndType c msg = refineContentAndType c (withContents ∅ msg))
  ∧ (∀ isGroup msg, MsgType (buildMessage c isGroup msg) ∈ ChatLabTypes)
  ∧ (∀ isGroup msg, Type_ msg ∉ primaryCases c →
       MsgType (buildMessage c isGroup msg) = ChatLabTypeOther
       ∧ MsgContent (buildMessage c isGroup msg) = Content msg)
  ∧ (∀ isGroup msgs memberMap msg,
       loopBody c isGroup (msgs, memberMap) (Some msg)
       = Some (append msgs (buildMessage c isGroup msg),
               collectMember isGroup msg memberMap))
  ∧ (∀ order now (ms : list Message) talkerID talkerName,
       ∃ cl, ConvertToChatLab c order now (Some <$> ms) talkerID talkerName = Some cl
             ∧ Forall (λ m, MsgType m ∈ ChatLabTypes) (elems (Messages cl))).
Proof.
  split_and!.
  - intros [[]|] Hv; try done. by destruct (Hv s).
  - apply refineContentAndType_soft.
  - intros isGroup msg.
    pose proof (buildMessage_type_content c isGroup msg) as Hpair.
    pose proof (refineContentAndType_codes c msg) as Hin.
    rewrite <- Hpair in Hin. exact Hin.
  - intros isGroup msg Hnone.
    pose proof (buildMessage_type_content c isGroup msg) as Hpair.
    unfold primaryCases in Hnone. rewrite !not_elem_of_cons in Hnone.
    destruct_and? Hnone.
    unfold refineContentAndType in Hpair. revert Hpair.
    run_switch. by intros [= -> ->].
  - done.
  - intros order now ms talkerID talkerName.
    eexists. split; [apply ConvertToChatLab_deref|]. simpl.
    apply Forall_fmap, Forall_forall. intros msg _. simpl.
    pose proof (buildMessage_type_content c (inferIsGroup talkerID) msg) as Hpair.
    pose proof (refineContentAndType_codes c msg) as Hin.
    rewrite <- Hpair in Hin. exact Hin.
Qed.

(** A message of a primary type the [switch] does not know, with
    attributes of the wrong type. *)
Example unknown_type_message :
  let msg := {| Time := {| Unix := 0 |}; Sender := "s"; SenderName := "n";
                IsSelf := false; Type_ := 12345; SubType := 0; Content := "raw";
                Contents := {[ "path" := VInt 3; "title" := VNil ]} |} in
  refineContentAndType wechatCodes msg = (ChatLabTypeOther, "raw").
Proof. by vm_compute. Qed.

(** ** The message list *)

(** C3.  The output message list is as long as the input sequence and its
    i-th record is the one built from the i-th input message: nothing is
    sorted, dropped or merged. *)
Theorem messages_in_order c order now (ms : list Message) talkerID talkerName :
  ∃ cl, ConvertToChatLab c order now (Some <$> ms) talkerID talkerName = Some cl
    ∧ length (elems (Messages cl)) = length ms
    ∧ ∀ i, elems (Messages cl) !! i
           = buildMessage c (inferIsGroup talkerID) <$> ms !! i.
Proof.
  eexists. split; [apply ConvertToChatLab_deref|]. simpl. split.
  - apply length_fmap.
  - intros i. apply list_lookup_fmap.
Qed.

(** The i-th record keeps the sender and timestamp of the i-th message. *)
Lemma buildMessage_sender_time c isGroup msg :
  MsgSender (buildMessage c isGroup msg) = Sender msg
  ∧ Timestamp (buildMessage c isGroup msg) = Unix (Time msg).
Proof. unfold buildMessage. by destruct (refineContentAndType c msg). Qed.

Lemma buildMessage_names c isGroup msg :
  AccountName (buildMessage c isGroup msg) = handleSelfName msg
  ∧ GroupNickname (buildMessage c isGroup msg)
    = (if isGroup then handleSelfName msg else "").
Proof. unfold buildMessage. by destruct (refineContentAndType c msg). Qed.

(** C9.  In a group conversation the group nickname of every export
    message is the resolved sender display name, the same value as its
    account name; in a private conversation it is empty. *)
Theorem group_nickname c order now (ms : list Message) talkerID talkerName :
  ∃ cl, ConvertToChatLab c order now (Some <$> ms) talkerID talkerName = Some cl
    ∧ (MetaType (Meta cl) = "group" ∨ MetaType (Meta cl) = "private")
    ∧ ∀ i m, elems (Messages cl) !! i = Some m →
        ∃ msg, ms !! i = Some msg
          ∧ AccountName m = handleSelfName msg
          ∧ (MetaType (Meta cl) = "group" →
               GroupNickname m = handleSelfName msg
               ∧ GroupNickname m = AccountName m)
          ∧ (MetaType (Meta cl) = "private" → GroupNickname m = "").
Proof.
  eexists. split; [apply ConvertToChatLab_deref|]. simpl. split.
  - destruct (inferIsGroup talkerID); [by left | by right].
  - intros i m Hm. rewrite list_lookup_fmap in Hm.
    apply fmap_Some in Hm as (msg & Hmsg & ->). exists msg.
    destruct (buildMessage_names c (inferIsGroup talkerID) msg) as [Hacc Hnick].
    rewrite Hacc, Hnick.
    destruct (inferIsGroup talkerID); split_and!; done.
Qed.

(** ** The empty conversation *)

(** C10.  On an empty message sequence the conversion returns an envelope
    whose message list and roster are empty and not [nil], whose header
    carries version ["0.0.1"], generator ["Chatlog"] and the export
    instant, and whose metadata carries the resolved name, the platform,
    the kind and the groupId. *)
Theorem empty_conversation c order now talkerID talkerName :
  range_order order →
  ∃ cl, ConvertToChatLab c order now [] talkerID talkerName = Some cl
    ∧ Messages cl = SOf [] ∧ Members cl = SOf []
    ∧ Messages cl ≠ SNil ∧ Members cl ≠ SNil
    ∧ Header cl = {| Version := "0.0.1"; ExportedAt := now;
                     Generator := "Chatlog"; Description := "" |}
    ∧ Name (Meta cl) = (if bool_decide (talkerName = "") then talkerID else talkerName)
    ∧ Platform (Meta cl) = "wechat"
    ∧ GroupAvatar (Meta cl) = ""
    ∧ (hasGroupSuffix talkerID →
         MetaType (Meta cl) = "group" ∧ GroupID (Meta cl) = talkerID)
    ∧ (¬ hasGroupSuffix talkerID →
         MetaType (Meta cl) = "private" ∧ GroupID (Meta cl) = "").
Proof.
  intros Horder. eexists.
  split; [apply (ConvertToChatLab_deref c order now [])|]. simpl.
  assert (order ∅ = []) as ->.
  { apply Permutation_nil_r. rewrite (Horder ∅). by rewrite map_to_list_empty. }
  split_and!; try done.
  - intros Hg%inferIsGroup_spec. by rewrite Hg.
  - intros Hp%inferIsGroup_false. by rewrite Hp.
Qed.

Lemma range_order_map_to_list : range_order map_to_list.
Proof. intros m. reflexivity. Qed.

Lemma range_order_reverse : range_order (λ m, reverse (map_to_list m)).
Proof. intros m. apply reverse_Permutation. Qed.

Lemma empty_conversation_witness :
  ∃ cl, ConvertToChatLab wechatCodes map_to_list 1700000000 [] "wxid_abc123" ""
        = Some cl
    ∧ Messages cl = SOf [] ∧ Members cl = SOf []
    ∧ Name (Meta cl) = "wxid_abc123" ∧ MetaType (Meta cl) = "private".
Proof.
  destruct (empty_conversation wechatCodes map_to_list 1700000000 "wxid_abc123" "")
    as (cl & Hcl & Hmsgs & Hmembers & _ & _ & _ & Hname & _ & _ & _ & Hprivate).
  - intros m. reflexivity.
  - exists cl. split_and!; try done.
    apply Hprivate. apply inferIsGroup_false. reflexivity.
Defined.

(** ** The roster *)

(** Whatever order [range] takes, the roster is the values of the final
    member map, each once. *)
Lemma roster_Permutation order (memberMap : gmap string ChatLabMember) :
  range_order order → (order memberMap).*2 ≡ₚ (map_to_list memberMap).*2.
Proof. intros Horder. by rewrite (Horder memberMap). Qed.

Lemma roster_ids order isGroup ms :
  range_order order →
  PlatformID <$> (order (collectAll isGroup ms ∅)).*2
  ≡ₚ (map_to_list (collectAll isGroup ms ∅)).*1.
Proof.
  intros Horder. rewrite (roster_Permutation _ _ Horder).
  by rewrite collectAll_keys.
Qed.

Lemma roster_elem_of order isGroup ms member :
  range_order order →
  member ∈ (order (collectAll isGroup ms ∅)).*2 ↔
  ∃ msg, firstBy (PlatformID member) ms = Some msg
         ∧ member = buildMember isGroup msg.
Proof.
  intros Horder. rewrite (roster_Permutation _ _ Horder).
  rewrite list_elem_of_fmap. split.
  - intros ([k v] & -> & Hin). simpl.
    apply elem_of_map_to_list in Hin.
    rewrite (collectAll_key _ _ _ _ Hin).
    rewrite collectAll_empty_lookup in Hin.
    apply fmap_Some in Hin as (msg & Hfirst & ->). by exists msg.
  - intros (msg & Hfirst & ->).
    exists (PlatformID (buildMember isGroup msg), buildMember isGroup msg).
    split; [done|]. apply elem_of_map_to_list.
    rewrite collectAll_empty_lookup. by rewrite Hfirst.
Qed.

(** C4.  The roster has exactly one member per distinct sender of the
    input: the platform ids of the roster are duplicate-free and are the
    senders of the input; and each member is the one built from the first
    message of its sender: its platform id is that sender, its account
    name is the display name resolved from that first message (the
    message's own name, or ["我"] for an unnamed self-authored one), and
    its group nickname is that same name in a group conversation and
    empty in a private one, whatever later messages of that sender
    carry. *)
Theorem roster_first_seen c order now (ms : list Message) talkerID talkerName :
  range_order order →
  ∃ cl, ConvertToChatLab c order now (Some <$> ms) talkerID talkerName = Some cl
    ∧ NoDup (PlatformID <$> elems (Members cl))
    ∧ (∀ s, s ∈ PlatformID <$> elems (Members cl) ↔ s ∈ Sender <$> ms)
    ∧ PlatformID <$> elems (Members cl) ≡ₚ remove_dups (Sender <$> ms)
    ∧ ∀ member, member ∈ elems (Members cl) →
        ∃ pre msg post,
          ms = pre ++ msg :: post
          ∧ Forall (λ m, Sender m ≠ Sender msg) pre
          ∧ member = buildMember (inferIsGroup talkerID) msg
          ∧ PlatformID member = Sender msg
          ∧ MemberAccountName member
            = (if IsSelf msg && bool_decide (SenderName msg = "")
               then "我" else SenderName msg)
          ∧ MemberAccountName member = handleSelfName msg
          ∧ (hasGroupSuffix talkerID →
               MemberGroupNickname member = MemberAccountName member)
          ∧ (¬ hasGroupSuffix talkerID → MemberGroupNickname member = "")
          ∧ Aliases member = SNil ∧ Avatar member = "".
Proof.
  intros Horder. eexists. split; [apply ConvertToChatLab_deref|]. simpl.
  set (isGroup := inferIsGroup talkerID).
  assert (NoDup (PlatformID <$> (order (collectAll isGroup ms ∅)).*2)) as Hnodup.
  { rewrite (roster_ids _ _ _ Horder). apply NoDup_fst_map_to_list. }
  assert (∀ s, s ∈ PlatformID <$> (order (collectAll isGroup ms ∅)).*2
               ↔ s ∈ Sender <$> ms) as Hsame.
  { intros s. rewrite (roster_ids _ _ _ Horder).
    rewrite <- firstBy_is_Some, list_elem_of_fmap. split.
    - intros ([k v] & -> & Hin%elem_of_map_to_list). simpl.
      rewrite collectAll_empty_lookup in Hin.
      apply fmap_Some in Hin as (msg & -> & _). by eexists.
    - intros [msg Hfirst]. exists (s, buildMember isGroup msg).
      split; [done|]. apply elem_of_map_to_list.
      by rewrite collectAll_empty_lookup, Hfirst. }
  split_and!; [done | done | |].
  - apply NoDup_Permutation; [done | apply NoDup_remove_dups |].
    intros s. by rewrite Hsame, elem_of_remove_dups.
  - intros member Hin.
    apply (roster_elem_of _ _ _ _ Horder) in Hin as (msg & Hfirst & ->).
    apply firstBy_split in Hfirst as (pre & post & -> & Hs & Hpre).
    exists pre, msg, post.
    split_and!; [done | exact Hpre | done | done | done | done | | | done | done].
    + intros Hg%inferIsGroup_spec. subst isGroup. simpl. by rewrite Hg.
    + intros Hp%inferIsGroup_false. subst isGroup. simpl. by rewrite Hp.
Qed.

Lemma roster_first_seen_witness :
  ∃ cl, ConvertToChatLab wechatCodes map_to_list 1700000200
          (Some <$> sampleChat) "12345@chatroom" "" = Some cl
    ∧ NoDup (PlatformID <$> elems (Members cl))
    ∧ (∀ s, s ∈ PlatformID <$> elems (Members cl) ↔ s ∈ Sender <$> sampleChat)
    ∧ PlatformID <$> elems (Members cl) ≡ₚ remove_dups (Sender <$> sampleChat)
    ∧ ∀ member, member ∈ elems (Members cl) →
        ∃ pre msg post,
          sampleChat = pre ++ msg :: post
          ∧ Forall (λ m, Sender m ≠ Sender msg) pre
          ∧ member = buildMember (inferIsGroup "12345@chatroom") msg
          ∧ PlatformID member = Sender msg
          ∧ MemberAccountName member
            = (if IsSelf msg && bool_decide (SenderName msg = "")
               then "我" else SenderName msg)
          ∧ MemberAccountName member = handleSelfName msg
          ∧ (hasGroupSuffix "12345@chatroom" →
               MemberGroupNickname member = MemberAccountName member)
          ∧ (¬ hasGroupSuffix "12345@chatroom" → MemberGroupNickname member = "")
          ∧ Aliases member = SNil ∧ Avatar member = "".
Proof.
  apply (roster_first_seen wechatCodes map_to_list 1700000200 sampleChat
           "12345@chatroom" "").
  intros m. reflexivity.
Defined.

(** ** The first-person label *)

Lemma handleSelfName_self msg :
  IsSelf msg = true → SenderName msg = "" → handleSelfName msg = "我".
Proof. unfold handleSelfName. by intros -> ->. Qed.

(** C5, as stated, fails: [ownerUnnamed] is self-authored and has no
    display name, yet the roster entry of its sender keeps the name of the
    sender's first message. *)
Lemma self_label_counterexample :
  ∃ cl, ConvertToChatLab wechatCodes map_to_list 1700000200
          (Some <$> sampleChat) "12345@chatroom" "" = Some cl
    ∧ sampleChat !! 1%nat = Some ownerUnnamed
    ∧ IsSelf ownerUnnamed = true ∧ SenderName ownerUnnamed = ""
    ∧ ∃ member, member ∈ elems (Members cl)
        ∧ PlatformID member = Sender ownerUnnamed
        ∧ MemberAccountName member = "Bob"
        ∧ MemberAccountName member ≠ "我".
Proof.
  eexists. split; [by vm_compute|]. split_and!; try done.
  eexists. split; [apply list_elem_of_here|]. by vm_compute.
Qed.

(** C5, amended.  A self-authored message without a display name gets the
    first-person label ["我"] as the account name of its export message,
    and so does every later such message; the roster entry of its sender
    carries the label when the message is the first one by that sender. *)
Theorem self_label c order now (ms : list Message) talkerID talkerName :
  range_order order →
  ∃ cl, ConvertToChatLab c order now (Some <$> ms) talkerID talkerName = Some cl
    ∧ (∀ i msg, ms !! i = Some msg → IsSelf msg = true → SenderName msg = "" →
         ∃ m, elems (Messages cl) !! i = Some m
              ∧ MsgSender m = Sender msg ∧ AccountName m = "我")
    ∧ (∀ msg, firstBy (Sender msg) ms = Some msg →
         IsSelf msg = true → SenderName msg = "" →
         ∃ member, member ∈ elems (Members cl)
           ∧ PlatformID member = Sender msg
           ∧ MemberAccountName member = "我"
           ∧ ∀ other, other ∈ elems (Members cl) →
               PlatformID other = Sender msg → other = member).
Proof.
  intros Horder. eexists. split; [apply ConvertToChatLab_deref|]. simpl.
  set (isGroup := inferIsGroup talkerID). split.
  - intros i msg Hi Hself Hname. exists (buildMessage c isGroup msg).
    rewrite list_lookup_fmap, Hi. split; [done|].
    destruct (buildMessage_names c isGroup msg) as [-> _].
    destruct (buildMessage_sender_time c isGroup msg) as [-> _].
    by rewrite handleSelfName_self.
  - intros msg Hfirst Hself Hname. exists (buildMember isGroup msg).
    split_and!.
    + apply (roster_elem_of _ _ _ _ Horder). by exists msg.
    + done.
    + simpl. by apply handleSelfName_self.
    + intros other Hin Hid.
      apply (roster_elem_of _ _ _ _ Horder) in Hin as (msg' & Hfirst' & ->).
      simpl in Hid, Hfirst'. rewrite Hid in Hfirst'. congruence.
Qed.

Lemma self_label_witness :
  ∃ cl, ConvertToChatLab wechatCodes map_to_list 1700000200
          (Some <$> [ownerUnnamed; aliceReply; ownerNamed]) "wxid_abc123" "Alice"
        = Some cl
    ∧ (∃ m, elems (Messages cl) !! 0%nat = Some m ∧ AccountName m = "我")
    ∧ (∃ member, member ∈ elems (Members cl)
         ∧ PlatformID member = "wxid_me" ∧ MemberAccountName member = "我").
Proof.
  destruct (self_label wechatCodes map_to_list 1700000200
              [ownerUnnamed; aliceReply; ownerNamed] "wxid_abc123" "Alice")
    as (cl & Hcl & Hmsg & Hroster).
  - intros m. reflexivity.
  - exists cl. split; [exact Hcl|]. split.
    + destruct (Hmsg 0%nat ownerUnnamed) as (m & ? & _ & ?); try reflexivity.
      by exists m.
    + destruct (Hroster ownerUnnamed) as (member & ? & ? & ? & _);
        try reflexivity.
      by exists member.
Defined.

(** ** Running the conversion twice *)

(** C6, as stated, fails: two runs on the same input may visit the member
    map in different orders, and then the rosters differ as sequences. *)
Lemma rerun_counterexample :
  range_order map_to_list
  ∧ range_order (λ m, reverse (map_to_list m))
  ∧ ∃ cl1 cl2,
      ConvertToChatLab wechatCodes map_to_list 1700000200
        (Some <$> sampleChat) "12345@chatroom" "" = Some cl1
      ∧ ConvertToChatLab wechatCodes (λ m, reverse (map_to_list m)) 1700000200
          (Some <$> sampleChat) "12345@chatroom" "" = Some cl2
      ∧ Messages cl1 = Messages cl2
      ∧ Members cl1 ≠ Members cl2.
Proof.
  split; [apply range_order_map_to_list|].
  split; [apply range_order_reverse|].
  do 2 eexists. split; [by vm_compute|]. split; [by vm_compute|].
  split; [done|]. by vm_compute.
Qed.

(** C6, amended.  Two runs on the same input, whatever the export
    instants and the orders in which the member map is visited, produce
    the same message list and metadata, and rosters with the same members,
    possibly in a different order. *)
Theorem rerun_same_content c order1 order2 now1 now2 (ms : list Message)
    talkerID talkerName :
  range_order order1 →
  range_order order2 →
  ∃ cl1 cl2,
    ConvertToChatLab c order1 now1 (Some <$> ms) talkerID talkerName = Some cl1
    ∧ ConvertToChatLab c order2 now2 (Some <$> ms) talkerID talkerName = Some cl2
    ∧ Messages cl1 = Messages cl2
    ∧ Meta cl1 = Meta cl2
    ∧ elems (Members cl1) ≡ₚ elems (Members cl2)
    ∧ Version (Header cl1) = Version (Header cl2)
    ∧ Generator (Header cl1) = Generator (Header cl2).
Proof.
  intros Horder1 Horder2. do 2 eexists.
  split; [apply ConvertToChatLab_deref|].
  split; [apply ConvertToChatLab_deref|]. simpl.
  split_and!; try done.
  rewrite (roster_Permutation _ _ Horder1).
  by rewrite (roster_Permutation _ _ Horder2).
Qed.

Lemma rerun_same_content_witness :
  ∃ cl1 cl2,
    ConvertToChatLab wechatCodes map_to_list 1700000200
      (Some <$> sampleChat) "12345@chatroom" "" = Some cl1
    ∧ ConvertToChatLab wechatCodes (λ m, reverse (map_to_list m)) 1700000999
        (Some <$> sampleChat) "12345@chatroom" "" = Some cl2
    ∧ Messages cl1 = Messages cl2
    ∧ Meta cl1 = Meta cl2
    ∧ elems (Members cl1) ≡ₚ elems (Members cl2)
    ∧ Version (Header cl1) = Version (Header cl2)
    ∧ Generator (Header cl1) = Generator (Header cl2).
Proof.
  apply (rerun_same_content wechatCodes map_to_list
           (λ m, reverse (map_to_list m)) 1700000200 1700000999 sampleChat
           "12345@chatroom" "").
  - intros m. reflexivity.
  - intros m. apply reverse_Permutation.
Defined.

(** * Further properties of [ConvertToChatLab] *)

(** ** Nil pointers *)

Lemma nil_or_deref (messages : list (option Message)) :
  None ∈ messages ∨ ∃ ms : list Message, messages = Some <$> ms.
Proof.
  induction messages as [|p rest IH].
  - right. by exists [].
  - destruct p as [msg|]; [|left; apply list_elem_of_here].
    destruct IH as [Hin|[ms ->]].
    + left. by apply list_elem_of_further.
    + right. by exists (msg :: ms).
Qed.

(** X1.  The conversion panics exactly when the slice holds a [nil]
    pointer: the loop reads [msg.Content] through every element. *)
Theorem nil_pointer_panics c order now (messages : list (option Message))
    talkerID talkerName :
  ConvertToChatLab c order now messages talkerID talkerName = None
  ↔ None ∈ messages.
Proof.
  split.
  - intros Hpanic. destruct (nil_or_deref messages) as [Hin|[ms ->]]; [done|].
    by rewrite ConvertToChatLab_deref in Hpanic.
  - intros Hin. unfold ConvertToChatLab.
    destruct (inferIsGroup talkerID); by rewrite messageLoop_nil.
Qed.

(** ** The remaining rows of the classification *)

Lemma buildMessage_refine c isGroup msg type content :
  refineContentAndType c msg = (type, content) →
  MsgType (buildMessage c isGroup msg) = type
  ∧ MsgContent (buildMessage c isGroup msg) = content.
Proof.
  intros Href. pose proof (buildMessage_type_content c isGroup msg) as Hpair.
  rewrite Href in Hpair. by injection Hpair.
Qed.

(** Enter the case of the outer [switch] that [Ht] names. *)
Ltac outer_switch Hdistinct Ht :=
  let Hprim := fresh "Hprim" in
  let Hsub := fresh "Hsub" in
  destruct Hdistinct as [Hprim Hsub];
  apply buildMessage_refine; unfold refineContentAndType;
  rewrite ?assertString_stringAttr;
  unfold primaryCases in Hprim; distinct_labels Hprim;
  rewrite Ht; run_switch.

(** X2.  Voice, video, contact-card and call messages get a fixed
    placeholder as content: the original text and the attributes are
    dropped. *)
Theorem placeholder_types c isGroup msg :
  codes_distinct c →
  (Type_ msg = MessageTypeVoice c →
     MsgType (buildMessage c isGroup msg) = ChatLabTypeVoice
     ∧ MsgContent (buildMessage c isGroup msg) = "[语音]")
  ∧ (Type_ msg = MessageTypeVideo c →
     MsgType (buildMessage c isGroup msg) = ChatLabTypeVideo
     ∧ MsgContent (buildMessage c isGroup msg) = "[视频]")
  ∧ (Type_ msg = MessageTypeCard c →
     MsgType (buildMessage c isGroup msg) = ChatLabTypeContact
     ∧ MsgContent (buildMessage c isGroup msg) = "[名片]")
  ∧ (Type_ msg = MessageTypeVOIP c →
     MsgType (buildMessage c isGroup msg) = ChatLabTypeCall
     ∧ MsgContent (buildMessage c isGroup msg) = "[通话]").
Proof.
  intros Hdistinct.
  split_and!; intros Ht; by outer_switch Hdistinct Ht.
Qed.

Lemma placeholder_types_witness :
  MsgContent (buildMessage wechatCodes false
                (sampleMessage (MessageTypeVoice wechatCodes) 0 "<voicemsg/>"
                   {[ "path" := VString "/tmp/v.silk" ]}))
  = "[语音]".
Proof.
  apply (placeholder_types wechatCodes false
           (sampleMessage (MessageTypeVoice wechatCodes) 0 "<voicemsg/>"
              {[ "path" := VString "/tmp/v.silk" ]})).
  - exact wechatCodes_distinct.
  - reflexivity.
Defined.

(** X3.  An animated sticker has export type emoji and the [cdnurl]
    attribute as content whenever that attribute is a string, the empty
    string included; otherwise the placeholder ["[表情]"]. *)
Theorem animation_content c isGroup msg :
  codes_distinct c →
  Type_ msg = MessageTypeAnimation c →
  MsgType (buildMessage c isGroup msg) = ChatLabTypeEmoji
  ∧ MsgContent (buildMessage c isGroup msg)
    = default "[表情]" (stringAttr msg "cdnurl").
Proof.
  intros Hdistinct Ht. outer_switch Hdistinct Ht.
  by destruct (stringAttr msg "cdnurl").
Qed.

Lemma animation_content_witness :
  MsgType (buildMessage wechatCodes false
             (sampleMessage (MessageTypeAnimation wechatCodes) 0 "<emoji/>"
                {[ "cdnurl" := VString "" ]})) = ChatLabTypeEmoji
  ∧ MsgContent (buildMessage wechatCodes false
                  (sampleMessage (MessageTypeAnimation wechatCodes) 0 "<emoji/>"
                     {[ "cdnurl" := VString "" ]})) = "".
Proof.
  refine (animation_content wechatCodes false
            (sampleMessage (MessageTypeAnimation wechatCodes) 0 "<emoji/>"
               {[ "cdnurl" := VString "" ]}) _ _).
  - exact wechatCodes_distinct.
  - reflexivity.
Defined.

(** X4.  A location message has export type location and its [label]
    attribute as content only when that is a non-empty string; an absent,
    non-string or empty label gives the placeholder ["[位置]"]. *)
Theorem location_content c isGroup msg :
  codes_distinct c →
  Type_ msg = MessageTypeLocation c →
  MsgType (buildMessage c isGroup msg) = ChatLabTypeLocation
  ∧ MsgContent (buildMessage c isGroup msg)
    = match stringAttr msg "label" with
      | Some label => if bool_decide (label = "") then "[位置]" else label
      | None => "[位置]"
      end
  ∧ MsgContent (buildMessage c isGroup msg) ≠ "".
Proof.
  intros Hdistinct Ht.
  enough (refineContentAndType c msg
          = (ChatLabTypeLocation,
             match stringAttr msg "label" with
             | Some label => if bool_decide (label = "") then "[位置]" else label
             | None => "[位置]"
             end)) as Href.
  { apply (buildMessage_refine c isGroup) in Href as [-> ->].
    split_and!; [done | done |].
    destruct (stringAttr msg "label") as [label|]; [|done].
    by case_bool_decide. }
  destruct Hdistinct as [Hprim Hsub].
  unfold refineContentAndType. rewrite ?assertString_stringAttr.
  unfold primaryCases in Hprim. distinct_labels Hprim.
  rewrite Ht.
  destruct (stringAttr msg "label") as [label|]; simpl; run_switch; congruence.
Qed.

Lemma location_content_witness :
  MsgType (buildMessage wechatCodes false
             (sampleMessage (MessageTypeLocation wechatCodes) 0 "<location/>"
                {[ "label" := VString "" ]})) = ChatLabTypeLocation
  ∧ MsgContent (buildMessage wechatCodes false
                  (sampleMessage (MessageTypeLocation wechatCodes) 0 "<location/>"
                     {[ "label" := VString "" ]})) = "[位置]"
  ∧ MsgContent (buildMessage wechatCodes false
                  (sampleMessage (MessageTypeLocation wechatCodes) 0 "<location/>"
                     {[ "label" := VString "" ]})) ≠ "".
Proof.
  refine (location_content wechatCodes false
            (sampleMessage (MessageTypeLocation wechatCodes) 0 "<location/>"
               {[ "label" := VString "" ]}) _ _).
  - exact wechatCodes_distinct.
  - reflexivity.
Defined.

(** X5.  Text and system messages keep their content verbatim, whatever
    attributes they carry. *)
Theorem text_system_unchanged c isGroup msg :
  codes_distinct c →
  (Type_ msg = MessageTypeText c →
     MsgType (buildMessage c isGroup msg) = ChatLabTypeText
     ∧ MsgContent (buildMessage c isGroup msg) = Content msg)
  ∧ (Type_ msg = MessageTypeSystem c →
     MsgType (buildMessage c isGroup msg) = ChatLabTypeSystem
     ∧ MsgContent (buildMessage c isGroup msg) = Content msg).
Proof.
  intros Hdistinct.
  split_and!; intros Ht; by outer_switch Hdistinct Ht.
Qed.

Lemma text_system_unchanged_witness :
  MsgType (buildMessage wechatCodes false
             (sampleMessage (MessageTypeSystem wechatCodes) 0 "Alice joined"
                {[ "path" := VString "/tmp/a.jpg" ]})) = ChatLabTypeSystem
  ∧ MsgContent (buildMessage wechatCodes false
                  (sampleMessage (MessageTypeSystem wechatCodes) 0 "Alice joined"
                     {[ "path" := VString "/tmp/a.jpg" ]})) = "Alice joined".
Proof.
  apply (text_system_unchanged wechatCodes false
           (sampleMessage (MessageTypeSystem wechatCodes) 0 "Alice joined"
              {[ "path" := VString "/tmp/a.jpg" ]})).
  - exact wechatCodes_distinct.
  - reflexivity.
Defined.


(** ** The remaining rows of the share sub-type table *)

(** Enter the case of the inner [switch] that [Hs] names. *)
Ltac inner_switch Hs :=
  unfold refineShare; cbv zeta; rewrite ?assertString_stringAttr;
  rewrite Hs; run_switch.

Ltac share_switch Hdistinct Ht Hs :=
  let Hprim := fresh "Hprim" in
  let Hsub := fresh "Hsub" in
  destruct Hdistinct as [Hprim Hsub];
  apply buildMessage_refine; unfold refineContentAndType;
  unfold primaryCases in Hprim; distinct_labels Hprim;
  unfold subCases in Hsub; distinct_labels Hsub;
  rewrite Ht; run_switch; inner_switch Hs.

(** X6.  Among share messages, the sub-types file, merge-forward, note,
    room-notice and the two mini-program variants take the [title]
    attribute as content when it is a string and keep the original
    content otherwise; their export types are file, forward and share. *)
Theorem share_title_subtypes c isGroup msg :
  codes_distinct c →
  Type_ msg = MessageTypeShare c →
  (SubType msg = MessageSubTypeFile c →
     MsgType (buildMessage c isGroup msg) = ChatLabTypeFile
     ∧ MsgContent (buildMessage c isGroup msg)
       = default (Content msg) (stringAttr msg "title"))
  ∧ (SubType msg = MessageSubTypeMergeForward c
     ∨ SubType msg = MessageSubTypeNote c
     ∨ SubType msg = MessageSubTypeChatRoomNotice c →
     MsgType (buildMessage c isGroup msg) = ChatLabTypeForward
     ∧ MsgContent (buildMessage c isGroup msg)
       = default (Content msg) (stringAttr msg "title"))
  ∧ (SubType msg = MessageSubTypeMiniProgram c
     ∨ SubType msg = MessageSubTypeMiniProgram2 c →
     MsgType (buildMessage c isGroup msg) = ChatLabTypeShare
     ∧ MsgContent (buildMessage c isGroup msg)
       = default (Content msg) (stringAttr msg "title")).
Proof.
  intros Hdistinct Ht. split_and!.
  - intros Hs. share_switch Hdistinct Ht Hs.
    by destruct (stringAttr msg "title").
  - intros [Hs|[Hs|Hs]]; share_switch Hdistinct Ht Hs;
      by destruct (stringAttr msg "title").
  - intros [Hs|Hs]; share_switch Hdistinct Ht Hs;
      by destruct (stringAttr msg "title").
Qed.

Lemma share_title_subtypes_witness :
  MsgType (buildMessage wechatCodes false
             (sampleMessage (MessageTypeShare wechatCodes)
                (MessageSubTypeFile wechatCodes) "<appmsg/>"
                {[ "title" := VString "report.pdf" ]})) = ChatLabTypeFile
  ∧ MsgContent (buildMessage wechatCodes false
                  (sampleMessage (MessageTypeShare wechatCodes)
                     (MessageSubTypeFile wechatCodes) "<appmsg/>"
                     {[ "title" := VString "report.pdf" ]})) = "report.pdf".
Proof.
  refine (proj1 (share_title_subtypes wechatCodes false
                   (sampleMessage (MessageTypeShare wechatCodes)
                      (MessageSubTypeFile wechatCodes) "<appmsg/>"
                      {[ "title" := VString "report.pdf" ]}) _ _) _).
  - exact wechatCodes_distinct.
  - reflexivity.
  - reflexivity.
Defined.

(** X7.  Quote, pat and pay shares keep the original content; their
    export types are reply, poke and transfer. *)
Theorem share_passthrough_subtypes c isGroup msg :
  codes_distinct c →
  Type_ msg = MessageTypeShare c →
  (SubType msg = MessageSubTypeQuote c →
     MsgType (buildMessage c isGroup msg) = ChatLabTypeReply
     ∧ MsgContent (buildMessage c isGroup msg) = Content msg)
  ∧ (SubType msg = MessageSubTypePat c →
     MsgType (buildMessage c isGroup msg) = ChatLabTypePoke
     ∧ MsgContent (buildMessage c isGroup msg) = Content msg)
  ∧ (SubType msg = MessageSubTypePay c →
     MsgType (buildMessage c isGroup msg) = ChatLabTypeTransfer
     ∧ MsgContent (buildMessage c isGroup msg) = Content msg).
Proof.
  intros Hdistinct Ht.
  split_and!; intros Hs; by share_switch Hdistinct Ht Hs.
Qed.

Lemma share_passthrough_subtypes_witness :
  MsgType (buildMessage wechatCodes true
             (sampleMessage (MessageTypeShare wechatCodes)
                (MessageSubTypeQuote wechatCodes) "agreed"
                {[ "title" := VString "agreed" ]})) = ChatLabTypeReply
  ∧ MsgContent (buildMessage wechatCodes true
                  (sampleMessage (MessageTypeShare wechatCodes)
                     (MessageSubTypeQuote wechatCodes) "agreed"
                     {[ "title" := VString "agreed" ]})) = "agreed".
Proof.
  refine (proj1 (share_passthrough_subtypes wechatCodes true
                   (sampleMessage (MessageTypeShare wechatCodes)
                      (MessageSubTypeQuote wechatCodes) "agreed"
                      {[ "title" := VString "agreed" ]}) _ _) _).
  - exact wechatCodes_distinct.
  - reflexivity.
  - reflexivity.
Defined.

(** X8.  A music share has export type share, like the default, but its
    content is the [url] attribute when that is a string. *)
Theorem share_music c isGroup msg :
  codes_distinct c →
  Type_ msg = MessageTypeShare c →
  SubType msg = MessageSubTypeMusic c →
  MsgType (buildMessage c isGroup msg) = ChatLabTypeShare
  ∧ MsgContent (buildMessage c isGroup msg)
    = default (Content msg) (stringAttr msg "url").
Proof.
  intros Hdistinct Ht Hs. share_switch Hdistinct Ht Hs.
  by destruct (stringAttr msg "url").
Qed.

Lemma share_music_witness :
  MsgType (buildMessage wechatCodes false
             (sampleMessage (MessageTypeShare wechatCodes)
                (MessageSubTypeMusic wechatCodes) "<appmsg/>"
                {[ "url" := VString "https://m.test/1" ]})) = ChatLabTypeShare
  ∧ MsgContent (buildMessage wechatCodes false
                  (sampleMessage (MessageTypeShare wechatCodes)
                     (MessageSubTypeMusic wechatCodes) "<appmsg/>"
                     {[ "url" := VString "https://m.test/1" ]}))
    = "https://m.test/1".
Proof.
  refine (share_music wechatCodes false
            (sampleMessage (MessageTypeShare wechatCodes)
               (MessageSubTypeMusic wechatCodes) "<appmsg/>"
               {[ "url" := VString "https://m.test/1" ]}) _ _ _).
  - exact wechatCodes_distinct.
  - reflexivity.
  - reflexivity.
Defined.

(** X9.  A red-envelope or red-envelope-cover share has export type
    red-packet and the placeholder ["[红包]"] as content: the original
    content and the attributes are dropped. *)
Theorem share_red_envelope c isGroup msg :
  codes_distinct c →
  Type_ msg = MessageTypeShare c →
  SubType msg = MessageSubTypeRedEnvelope c
  ∨ SubType msg = MessageSubTypeRedEnvelopeCover c →
  MsgType (buildMessage c isGroup msg) = ChatLabTypeRedPacket
  ∧ MsgContent (buildMessage c isGroup msg) = "[红包]".
Proof.
  intros Hdistinct Ht [Hs|Hs]; by share_switch Hdistinct Ht Hs.
Qed.

Lemma share_red_envelope_witness :
  MsgType (buildMessage wechatCodes false
             (sampleMessage (MessageTypeShare wechatCodes)
                (MessageSubTypeRedEnvelopeCover wechatCodes) "<appmsg/>"
                {[ "title" := VString "Happy new year" ]})) = ChatLabTypeRedPacket
  ∧ MsgContent (buildMessage wechatCodes false
                  (sampleMessage (MessageTypeShare wechatCodes)
                     (MessageSubTypeRedEnvelopeCover wechatCodes) "<appmsg/>"
                     {[ "title" := VString "Happy new year" ]})) = "[红包]".
Proof.
  refine (share_red_envelope wechatCodes false
            (sampleMessage (MessageTypeShare wechatCodes)
               (MessageSubTypeRedEnvelopeCover wechatCodes) "<appmsg/>"
               {[ "title" := VString "Happy new year" ]}) _ _ _).
  - exact wechatCodes_distinct.
  - reflexivity.
  - right. reflexivity.
Defined.


(** ** What the classification depends on *)

Lemma refineContentAndType_not_recall c msg :
  fst (refineContentAndType c msg) ≠ ChatLabTypeRecall.
Proof.
  unfold refineContentAndType, refineShare.
  rewrite !assertString_stringAttr.
  repeat case_bool_decide;
    repeat match goal with
           | |- context [stringAttr ?m ?k] => destruct (stringAttr m k)
           end;
    simpl; discriminate.
Qed.

(** X10.  No export message ever carries the recall code 81: the
    constant is declared but no case assigns it. *)
Theorem recall_never_produced c order now (ms : list Message) talkerID talkerName :
  ∃ cl, ConvertToChatLab c order now (Some <$> ms) talkerID talkerName = Some cl
    ∧ Forall (λ m, MsgType m ≠ ChatLabTypeRecall) (elems (Messages cl)).
Proof.
  eexists. split; [apply ConvertToChatLab_deref|]. simpl.
  apply Forall_fmap, Forall_forall. intros msg _. simpl.
  pose proof (buildMessage_type_content c (inferIsGroup talkerID) msg) as Hpair.
  pose proof (refineContentAndType_not_recall c msg) as Hne.
  rewrite <- Hpair in Hne. exact Hne.
Qed.

Lemma refineContentAndType_type_eq c msg1 msg2 :
  Type_ msg1 = Type_ msg2 →
  (Type_ msg1 = MessageTypeShare c → SubType msg1 = SubType msg2) →
  fst (refineContentAndType c msg1) = fst (refineContentAndType c msg2).
Proof.
  intros Ht Hs. unfold refineContentAndType.
  rewrite !assertString_stringAttr, <- Ht.
  repeat case_bool_decide;
    repeat match goal with
           | |- context [stringAttr ?m ?k] => destruct (stringAttr m k)
           end;
    simpl; try reflexivity.
  all: unfold refineShare; rewrite !assertString_stringAttr; cbv zeta;
    rewrite <- Hs by done;
    repeat case_bool_decide;
    repeat match goal with
           | |- context [stringAttr ?m ?k] => destruct (stringAttr m k)
           end;
    reflexivity.
Qed.

(** X11.  The export type code is decided by the primary type alone, and
    for share messages by the primary type and the sub-type: text,
    attributes, sender and the kind of conversation have no say. *)
Theorem type_depends_on_codes_only c isGroup1 isGroup2 msg1 msg2 :
  Type_ msg1 = Type_ msg2 →
  (Type_ msg1 = MessageTypeShare c → SubType msg1 = SubType msg2) →
  MsgType (buildMessage c isGroup1 msg1) = MsgType (buildMessage c isGroup2 msg2).
Proof.
  intros Ht Hs.
  pose proof (buildMessage_type_content c isGroup1 msg1) as Hpair1.
  pose proof (buildMessage_type_content c isGroup2 msg2) as Hpair2.
  pose proof (refineContentAndType_type_eq c msg1 msg2 Ht Hs) as Heq.
  rewrite <- Hpair1, <- Hpair2 in Heq. exact Heq.
Qed.

Lemma type_depends_on_codes_only_witness :
  MsgType (buildMessage wechatCodes true bareImage)
  = MsgType (buildMessage wechatCodes false
               (sampleMessage (MessageTypeImage wechatCodes) 7 "other text"
                  {[ "path" := VString "/tmp/a.jpg" ]})).
Proof.
  apply (type_depends_on_codes_only wechatCodes true false bareImage
           (sampleMessage (MessageTypeImage wechatCodes) 7 "other text"
              {[ "path" := VString "/tmp/a.jpg" ]})).
  - reflexivity.
  - intros Hshare. vm_compute in Hshare. discriminate Hshare.
Defined.

(** X12.  Only the attributes [path], [md5], [cdnurl], [label], [title]
    and [url] are ever read: replacing the attribute map by one that
    agrees on these six keys changes neither the export message nor the
    roster entry. *)
Theorem only_attribute_keys_read c isGroup msg (contents : gmap string GoValue) :
  (∀ key, key ∈ attributeKeys → contents !! key = Contents msg !! key) →
  buildMessage c isGroup (withContents contents msg) = buildMessage c isGroup msg
  ∧ buildMember isGroup (withContents contents msg) = buildMember isGroup msg.
Proof.
  intros Hsame. split; [|done].
  assert (∀ key, key ∈ attributeKeys →
            Contents (withContents contents msg) !! key = Contents msg !! key)
    as Hkeys by done.
  assert (refineContentAndType c (withContents contents msg)
          = refineContentAndType c msg) as Href.
  { unfold refineContentAndType, refineShare.
    rewrite !Hkeys by (unfold attributeKeys; set_solver). done. }
  unfold buildMessage. by rewrite Href.
Qed.

Lemma only_attribute_keys_read_witness :
  buildMessage wechatCodes false
    (withContents {[ "thumb" := VString "/tmp/t.jpg" ]} bareImage)
  = buildMessage wechatCodes false bareImage
  ∧ buildMember false (withContents {[ "thumb" := VString "/tmp/t.jpg" ]} bareImage)
    = buildMember false bareImage.
Proof.
  apply (only_attribute_keys_read wechatCodes false bareImage
           {[ "thumb" := VString "/tmp/t.jpg" ]}).
  intros key Hkey. unfold attributeKeys in Hkey.
  repeat (apply elem_of_cons in Hkey as [->|Hkey]; [reflexivity|]).
  by apply elem_of_nil in Hkey.
Defined.


(** ** The envelope as a whole *)

(** X13.  Header and metadata do not depend on the messages: the header is
    version ["0.0.1"], the export instant and generator ["Chatlog"] with
    no description; the name is the conversation name, or the conversation
    id when the name is empty, so it is empty only when both are; the
    platform is ["wechat"] and no group avatar is set. *)
Theorem header_meta_whatever_messages c order now (ms : list Message)
    talkerID talkerName :
  ∃ cl, ConvertToChatLab c order now (Some <$> ms) talkerID talkerName = Some cl
    ∧ Header cl = {| Version := "0.0.1"; ExportedAt := now;
                     Generator := "Chatlog"; Description := "" |}
    ∧ Name (Meta cl) = (if bool_decide (talkerName = "") then talkerID else talkerName)
    ∧ (Name (Meta cl) = "" ↔ talkerID = "" ∧ talkerName = "")
    ∧ Platform (Meta cl) = "wechat"
    ∧ GroupAvatar (Meta cl) = "".
Proof.
  eexists. split; [apply ConvertToChatLab_deref|]. simpl.
  split_and!; try done.
  case_bool_decide as Hname; split.
  - by intros ->.
  - by intros [-> _].
  - by intros ->.
  - by intros [_ ->].
Qed.

(** X14.  Every roster member has no aliases ([nil]) and no avatar; its
    group nickname equals its account name in a group conversation and is
    empty in a private one. *)
Theorem member_fields c order now (ms : list Message) talkerID talkerName :
  range_order order →
  ∃ cl, ConvertToChatLab c order now (Some <$> ms) talkerID talkerName = Some cl
    ∧ ∀ member, member ∈ elems (Members cl) →
        Aliases member = SNil ∧ Avatar member = ""
        ∧ (MetaType (Meta cl) = "group" →
             MemberGroupNickname member = MemberAccountName member)
        ∧ (MetaType (Meta cl) = "private" → MemberGroupNickname member = "").
Proof.
  intros Horder. eexists. split; [apply ConvertToChatLab_deref|]. simpl.
  intros member Hin.
  apply (roster_elem_of _ _ _ _ Horder) in Hin as (msg & _ & ->). simpl.
  destruct (inferIsGroup talkerID); split_and!; done.
Qed.

Lemma member_fields_witness :
  ∃ cl, ConvertToChatLab wechatCodes map_to_list 1700000200
          (Some <$> sampleChat) "12345@chatroom" "" = Some cl
    ∧ ∀ member, member ∈ elems (Members cl) →
        Aliases member = SNil ∧ Avatar member = ""
        ∧ (MetaType (Meta cl) = "group" →
             MemberGroupNickname member = MemberAccountName member)
        ∧ (MetaType (Meta cl) = "private" → MemberGroupNickname member = "").
Proof.
  apply (member_fields wechatCodes map_to_list 1700000200 sampleChat
           "12345@chatroom" "").
  intros m. reflexivity.
Defined.

Lemma roster_id_elem_of isGroup ms s :
  s ∈ (map_to_list (collectAll isGroup ms ∅)).*1 ↔ s ∈ Sender <$> ms.
Proof.
  rewrite <- firstBy_is_Some, list_elem_of_fmap. split.
  - intros ([k v] & -> & Hin%elem_of_map_to_list). simpl.
    rewrite collectAll_empty_lookup in Hin.
    apply fmap_Some in Hin as (msg & -> & _). by eexists.
  - intros [msg Hfirst]. exists (s, buildMember isGroup msg).
    split; [done|]. apply elem_of_map_to_list.
    by rewrite collectAll_empty_lookup, Hfirst.
Qed.

(** X15.  Roster and message list fit together: both slices are never
    [nil]; the roster is no longer than the message list; every export
    message has a roster member for its sender; and every roster member
    carries the account name and group nickname of the first export
    message of that sender. *)
Theorem roster_matches_messages c order now (ms : list Message)
    talkerID talkerName :
  range_order order →
  ∃ cl, ConvertToChatLab c order now (Some <$> ms) talkerID talkerName = Some cl
    ∧ Members cl ≠ SNil ∧ Messages cl ≠ SNil
    ∧ (length (elems (Members cl)) ≤ length (elems (Messages cl)))%nat
    ∧ (∀ m, m ∈ elems (Messages cl) →
         ∃ member, member ∈ elems (Members cl) ∧ PlatformID member = MsgSender m)
    ∧ (∀ member, member ∈ elems (Members cl) →
         ∃ i m, elems (Messages cl) !! i = Some m
           ∧ MsgSender m = PlatformID member
           ∧ AccountName m = MemberAccountName member
           ∧ GroupNickname m = MemberGroupNickname member
           ∧ ∀ j m', (j < i)%nat → elems (Messages cl) !! j = Some m' →
               MsgSender m' ≠ PlatformID member).
Proof.
  intros Horder. eexists. split; [apply ConvertToChatLab_deref|]. simpl.
  set (isGroup := inferIsGroup talkerID).
  split_and!; [done | done | | |].
  - transitivity (length (Sender <$> ms)); [|by rewrite !length_fmap].
    rewrite <- (length_fmap PlatformID).
    apply submseteq_length, NoDup_submseteq.
    + rewrite (roster_ids _ _ _ Horder). apply NoDup_fst_map_to_list.
    + intros s. rewrite (roster_ids _ _ _ Horder). apply roster_id_elem_of.
  - intros m Hm. apply list_elem_of_fmap in Hm as (msg & -> & Hmsg).
    assert (is_Some (firstBy (Sender msg) ms)) as [first Hfirst].
    { apply firstBy_is_Some. by apply list_elem_of_fmap_2. }
    exists (buildMember isGroup first). split.
    + apply (roster_elem_of _ _ _ _ Horder). exists first. split; [|done].
      simpl. apply firstBy_split in Hfirst as Hsplit.
      destruct Hsplit as (? & ? & _ & -> & _). exact Hfirst.
    + destruct (buildMessage_sender_time c isGroup msg) as [-> _]. simpl.
      by apply firstBy_split in Hfirst as (? & ? & _ & ? & _).
  - intros member Hin.
    apply (roster_elem_of _ _ _ _ Horder) in Hin as (msg & Hfirst & ->).
    apply firstBy_split in Hfirst as (pre & post & -> & _ & Hpre).
    exists (length pre), (buildMessage c isGroup msg).
    destruct (buildMessage_sender_time c isGroup msg) as [Hsender _].
    destruct (buildMessage_names c isGroup msg) as [Hacc Hnick].
    split_and!; try done.
    + rewrite list_lookup_fmap, list_lookup_middle; done.
    + intros j m' Hj Hm'. rewrite list_lookup_fmap in Hm'.
      rewrite lookup_app_l in Hm' by done.
      apply fmap_Some in Hm' as (msg' & Hmsg' & ->).
      destruct (buildMessage_sender_time c isGroup msg') as [-> _].
      rewrite Forall_forall in Hpre. apply Hpre.
      by eapply list_elem_of_lookup_2.
Qed.

Lemma roster_matches_messages_witness :
  ∃ cl, ConvertToChatLab wechatCodes map_to_list 1700000200
          (Some <$> sampleChat) "12345@chatroom" "" = Some cl
    ∧ (length (elems (Members cl)) ≤ length (elems (Messages cl)))%nat.
Proof.
  destruct (roster_matches_messages wechatCodes map_to_list 1700000200
              sampleChat "12345@chatroom" "")
    as (cl & Hcl & _ & _ & Hlen & _).
  - intros m. reflexivity.
  - exists cl. by split.
Defined.


(** ** Appending messages *)

Lemma firstBy_app s ms1 ms2 :
  firstBy s (ms1 ++ ms2)
  = match firstBy s ms1 with
    | Some msg => Some msg
    | None => firstBy s ms2
    end.
Proof.
  unfold firstBy. induction ms1 as [|m ms1 IH]; simpl; [done|].
  by case_bool_decide.
Qed.

Lemma firstBy_None s ms : firstBy s ms = None ↔ s ∉ Sender <$> ms.
Proof.
  rewrite <- firstBy_is_Some. destruct (firstBy s ms) as [msg|]; split.
  - done.
  - intros Hno. destruct Hno. by eexists.
  - by intros _ [? ?].
  - done.
Qed.

(** X16.  Converting a conversation extended by later messages, at any
    instants and with any orders of the final map walk: the message list
    is the old list followed by the records of the new messages, the
    metadata is the same, the header differs at most in its export
    instant, every old roster member is kept unchanged, and the only new
    members are those of the added messages whose sender had not written
    before. *)
Theorem convert_app c order1 order2 order now1 now2 now
    (ms1 ms2 : list Message) talkerID talkerName :
  range_order order1 →
  range_order order2 →
  range_order order →
  ∃ cl1 cl2 cl,
    ConvertToChatLab c order1 now1 (Some <$> ms1) talkerID talkerName = Some cl1
    ∧ ConvertToChatLab c order2 now2 (Some <$> ms2) talkerID talkerName = Some cl2
    ∧ ConvertToChatLab c order now (Some <$> (ms1 ++ ms2)) talkerID talkerName
      = Some cl
    ∧ elems (Messages cl) = elems (Messages cl1) ++ elems (Messages cl2)
    ∧ Meta cl = Meta cl1
    ∧ ExportedAt (Header cl1) = now1 ∧ ExportedAt (Header cl) = now
    ∧ Version (Header cl) = Version (Header cl1)
    ∧ Generator (Header cl) = Generator (Header cl1)
    ∧ Description (Header cl) = Description (Header cl1)
    ∧ ∀ member, member ∈ elems (Members cl) ↔
        member ∈ elems (Members cl1)
        ∨ (member ∈ elems (Members cl2)
           ∧ PlatformID member ∉ Sender <$> ms1).
Proof.
  intros Horder1 Horder2 Horder. do 3 eexists.
  split; [apply ConvertToChatLab_deref|].
  split; [apply ConvertToChatLab_deref|].
  split; [apply ConvertToChatLab_deref|]. simpl.
  split_and!; [apply fmap_app | done | done | done | done | done | done |].
  intros member.
  rewrite (roster_elem_of _ _ _ _ Horder1), (roster_elem_of _ _ _ _ Horder2),
    (roster_elem_of _ _ _ _ Horder).
  rewrite firstBy_app. split.
  - intros (msg & Hfirst & ->).
    destruct (firstBy _ ms1) as [msg1|] eqn:Hfirst1.
    + left. exists msg. by split.
    + right. split; [by exists msg|]. by apply firstBy_None.
  - intros [(msg & Hfirst & ->)|[(msg & Hfirst & ->) Hnew]].
    + exists msg. by rewrite Hfirst.
    + exists msg. apply firstBy_None in Hnew. by rewrite Hnew.
Qed.

Lemma convert_app_witness :
  ∃ cl1 cl2 cl,
    ConvertToChatLab wechatCodes map_to_list 1700000200
      (Some <$> [ownerNamed]) "12345@chatroom" "" = Some cl1
    ∧ ConvertToChatLab wechatCodes map_to_list 1700000300
        (Some <$> [ownerUnnamed; aliceReply]) "12345@chatroom" "" = Some cl2
    ∧ ConvertToChatLab wechatCodes (λ m, reverse (map_to_list m)) 1700000400
        (Some <$> ([ownerNamed] ++ [ownerUnnamed; aliceReply]))
        "12345@chatroom" "" = Some cl
    ∧ elems (Messages cl) = elems (Messages cl1) ++ elems (Messages cl2)
    ∧ Meta cl = Meta cl1
    ∧ ExportedAt (Header cl1) = 1700000200
    ∧ ExportedAt (Header cl) = 1700000400.
Proof.
  destruct (convert_app wechatCodes map_to_list map_to_list
              (λ m, reverse (map_to_list m))
              1700000200 1700000300 1700000400
              [ownerNamed] [ownerUnnamed; aliceReply] "12345@chatroom" "")
    as (cl1 & cl2 & cl & H1 & H2 & H & Hmsgs & Hmeta & Hat1 & Hat & _).
  - intros m. reflexivity.
  - intros m. reflexivity.
  - intros m. apply reverse_Permutation.
  - exists cl1, cl2, cl. by split_and!.
Defined.

(** ** Identity fields of the export message *)

(** X17.  The i-th export message carries the sender id and the epoch
    seconds of the i-th message unchanged; its account name is the
    message's display name as it is, an empty one included, unless the
    message is self-authored and unnamed. *)
Theorem message_identity_fields c order now (ms : list Message)
    talkerID talkerName :
  ∃ cl, ConvertToChatLab c order now (Some <$> ms) talkerID talkerName = Some cl
    ∧ ∀ i msg, ms !! i = Some msg →
        ∃ m, elems (Messages cl) !! i = Some m
          ∧ MsgSender m = Sender msg
          ∧ Timestamp m = Unix (Time msg)
          ∧ (IsSelf msg = false ∨ SenderName msg ≠ "" →
               AccountName m = SenderName msg).
Proof.
  eexists. split; [apply ConvertToChatLab_deref|]. simpl.
  intros i msg Hi. exists (buildMessage c (inferIsGroup talkerID) msg).
  rewrite list_lookup_fmap, Hi.
  destruct (buildMessage_sender_time c (inferIsGroup talkerID) msg) as [-> ->].
  destruct (buildMessage_names c (inferIsGroup talkerID) msg) as [-> _].
  split_and!; try done.
  unfold handleSelfName. intros [->|Hname]; [done|].
  rewrite bool_decide_false by done. by rewrite andb_false_r.
Qed.
